(** * Lamprey / host / predator ecosystem model (pycode/mathmodel(2).py)

    A shallow embedding of the dynamics function [ecosystem_model], of the
    piecewise-forced integration loop that drives it, and of the series
    derived from the trajectory, followed by the properties of the
    natural-language specification.

    The script computes with IEEE-754 binary64 numbers (Python floats and
    NumPy float64 arrays).  The embedding is written once over an arithmetic
    interface and read at two instances: the kernel's binary64 floats, which
    is what the program computes, and the real numbers, which is the exact
    arithmetic the specification's formulas are written in. *)

From Stdlib Require Import List Bool Arith ZArith QArith Qabs Lia.
From Stdlib Require Import Floats Uint63.
From Stdlib Require Import Reals Lra.
Import ListNotations.

Set Warnings "-inexact-float".

Close Scope R_scope.
Close Scope Q_scope.
Open Scope nat_scope.

(** ** Results of fallible code *)

(** The Python exceptions the modelled lines can raise: [ValueError] from the
    tuple unpacking of a state of the wrong size, [IndexError] from indexing
    an array past its end, [SolverError] for whatever the external solver
    raises by itself. *)
Inductive exn : Type :=
| ValueError
| IndexError
| SolverError.

Inductive result (A : Type) : Type :=
| OK (a : A)
| Raise (e : exn).
Arguments OK {A} a.
Arguments Raise {A} e.

(** ** The arithmetic interface *)

Declare Scope num_scope.
Delimit Scope num_scope with num.

(** [lit q] is the value of the decimal literal [q] of the source. *)
Class Arith (F : Type) : Type := {
  lit : Q -> F;
  add : F -> F -> F;
  sub : F -> F -> F;
  mul : F -> F -> F;
  div : F -> F -> F;
  ltb : F -> F -> bool
}.

Notation "# q" := (lit q%Q) (at level 1, q constr at level 0, format "# q") : num_scope.
Infix "+" := add : num_scope.
Infix "-" := sub : num_scope.
Infix "*" := mul : num_scope.
Infix "/" := div : num_scope.
Infix "<?" := ltb : num_scope.

(** *** binary64, as CPython and NumPy compute *)

Definition Z2float (z : Z) : float :=
  match z with
  | Z0 => PrimFloat.zero
  | Zpos _ => PrimFloat.of_uint63 (Uint63.of_Z z)
  | Zneg p => PrimFloat.opp (PrimFloat.of_uint63 (Uint63.of_Z (Zpos p)))
  end.

(** A decimal literal denotes the binary64 number nearest to it: numerator
    and denominator of the literals of this program are exact in binary64
    and IEEE division rounds their quotient to nearest-even. *)
Definition float_lit (q : Q) : float :=
  PrimFloat.div (Z2float (Qnum q)) (Z2float (Zpos (Qden q))).

#[export] Instance float_arith : Arith float := {|
  lit := float_lit;
  add := PrimFloat.add;
  sub := PrimFloat.sub;
  mul := PrimFloat.mul;
  div := PrimFloat.div;
  ltb := PrimFloat.ltb
|}.

(** *** exact real arithmetic *)

Definition Rltb (x y : R) : bool := if Rlt_dec x y then true else false.

#[export] Instance real_arith : Arith R := {|
  lit := Q2R;
  add := Rplus;
  sub := Rminus;
  mul := Rmult;
  div := Rdiv;
  ltb := Rltb
|}.

(** ** 1. The dynamics function (lines 16-44) *)

Section Dynamics.
Context {F : Type} `{Arith F}.
Local Open Scope num_scope.

(** line 22 *)
Definition male_ratio (resource_level : F) : F :=
  if resource_level <? #0.5 then #0.78 else #0.56.

(** line 23 *)
Definition female_ratio (resource_level : F) : F :=
  #1 - male_ratio resource_level.

(** line 26 *)
Definition eel_birth (f : F) : F := #0.8 * f.

(** line 28 *)
Definition eel_death (m f p : F) : F :=
  #0.1 * (m + f) + #0.02 * p * (m + f).

(** line 31 *)
Definition host_birth (h : F) : F := #0.5 * h.

(** line 32 *)
Definition host_death (m f h : F) : F :=
  #0.05 * h + #0.03 * (m + f) * h.

(** line 35 *)
Definition predator_birth (m f p : F) : F := #0.04 * p * (m + f).

(** line 36 *)
Definition predator_death (p : F) : F := #0.2 * p.

(** [m, f, h, p = state] raises ValueError unless [state] has exactly four
    entries; the time argument [t] is never read. *)
Definition ecosystem_model (state : list F) (t : F) (resource_level : F)
  : result (list F) :=
  match state with
  | [m; f; h; p] =>
      let d_m := (male_ratio resource_level * eel_birth f) - eel_death m f p in
      let d_f := (female_ratio resource_level * eel_birth f) - eel_death m f p in
      let d_h := host_birth h - host_death m f h in
      let d_p := predator_birth m f p - predator_death p in
      OK [d_m; d_f; d_h; d_p]
  | _ => Raise ValueError
  end.

End Dynamics.

(** ** 2. The integration loop (lines 58-66) *)

Definition bind {A B : Type} (r : result A) (k : A -> result B) : result B :=
  match r with
  | OK a => k a
  | Raise e => Raise e
  end.

Notation "x <- r ;; k" := (bind r (fun x => k))
  (at level 61, r at next level, right associativity).

(** [a[i]] on a list or array, for an index that is not negative. *)
Definition index {A : Type} (a : list A) (i : nat) : result A :=
  match nth_error a i with
  | Some x => OK x
  | None => Raise IndexError
  end.

(** How a run of the script's loop ends: the buffer [states] as it stands,
    and the exception that stopped the loop, if one did. *)
Record run (F : Type) : Type := {
  trajectory : list (list F);
  raised : option exn
}.
Arguments trajectory {F} r.
Arguments raised {F} r.

Section Integrator.
Context {F : Type} `{Arith F}.
Local Open Scope num_scope.

(** The right-hand side handed to the solver, with [args] already applied. *)
Definition rhs : Type := list F -> F -> result (list F).

(** SciPy's [odeint] is not part of the program: it is a parameter.
    [odeint func y0 t0 t1] stands for [odeint(func, y0, [t0, t1])[-1]], the
    solver's value at the right end of the sub-interval. *)
Variable odeint : rhs -> list F -> F -> F -> result (list F).

(** lines 62-64: one turn of the loop body.  The arguments of the call are
    evaluated first, so a missing [resource_levels[i]] raises before the
    solver runs. *)
Definition loop_body (t resource_levels : list F) (i : nat)
    (current_state : list F) : result (list F) :=
  t_i <- index t i ;;
  t_i1 <- index t (i + 1) ;;
  level <- index resource_levels i ;;
  odeint (fun y s => ecosystem_model y s level) current_state t_i t_i1.

(** lines 60-65: the [for] loop over [range], threading [current_state]
    and the buffer [states]. *)
Fixpoint integration_loop (t resource_levels : list F) (range : list nat)
    (current_state : list F) (states : list (list F)) : run F :=
  match range with
  | [] => {| trajectory := states; raised := None |}
  | i :: range' =>
      match loop_body t resource_levels i current_state with
      | OK res_last =>
          integration_loop t resource_levels range' res_last (states ++ [res_last])
      | Raise e => {| trajectory := states; raised := Some e |}
      end
  end.

(** lines 58-65, with [range(len(t)-1)]. *)
Definition simulate (t resource_levels initial_state : list F) : run F :=
  integration_loop t resource_levels (seq 0 (length t - 1)) initial_state [].

(** The solver returns on every sub-interval of a four-component problem
    and keeps the number of components. *)
Definition solver_returns : Prop :=
  forall level y t0 t1, length y = 4 ->
    exists y', odeint (fun s u => ecosystem_model s u level) y t0 t1 = OK y'
               /\ length y' = 4.

End Integrator.

(** Modelled from the spec: the external ODE solver, which the repository
    does not contain (section 4.2: "an external fixed-step or adaptive ODE
    solver ... return state at endpoint").  One explicit fixed step over the
    sub-interval; an exception of the right-hand side propagates. *)
Definition euler {F : Type} `{Arith F} (func : list F -> F -> result (list F))
    (y0 : list F) (t0 t1 : F) : result (list F) :=
  dy <- func y0 t0 ;;
  OK (map (fun yd => (fst yd + (t1 - t0) * snd yd)%num) (combine y0 dy)).

(** ** 3. Series derived from the trajectory (lines 66, 86, 125, 163) *)

Section Derived.
Context {F : Type} `{Arith F}.
Local Open Scope num_scope.

Fixpoint traverse {A B : Type} (g : A -> result B) (l : list A) : result (list B) :=
  match l with
  | [] => OK []
  | a :: l' => b <- g a ;; bs <- traverse g l' ;; OK (b :: bs)
  end.

(** [states[:, k]] after [states = np.array(states)]: an empty buffer makes
    a one-dimensional array, which has no column. *)
Definition column (states : list (list F)) (k : nat) : result (list F) :=
  match states with
  | [] => Raise IndexError
  | _ => traverse (fun row => index row k) states
  end.

(** NumPy's element-wise operation on two arrays of one shape.  Division of
    float64 arrays follows IEEE-754 and warns instead of raising. *)
Definition elementwise (op : F -> F -> F) (a b : list F) : list F :=
  map (fun ab => op (fst ab) (snd ab)) (combine a b).

(** lines 125, 137, 163: [states[:,0]+states[:,1]] *)
Definition eel_total_series (states : list (list F)) : result (list F) :=
  c0 <- column states 0 ;;
  c1 <- column states 1 ;;
  OK (elementwise add c0 c1).

(** line 86: [male_ratio = states[:,0]/(states[:,0]+states[:,1])] *)
Definition male_ratio_series (states : list (list F)) : result (list F) :=
  c0 <- column states 0 ;;
  total <- eel_total_series states ;;
  OK (elementwise div c0 total).

(** lines 99, 109: [states[:,2]] and [states[:,3]] *)
Definition host_series (states : list (list F)) : result (list F) := column states 2.
Definition predator_series (states : list (list F)) : result (list F) := column states 3.

End Derived.

(** ** 3b. The plots' data and the animation frames (lines 75-142) *)

(** [a[lo:hi]] for bounds that are not negative: the entries from [lo] up
    to, not including, [hi], as many as the array has. *)
Definition slice {A : Type} (a : list A) (lo hi : nat) : list A :=
  firstn (hi - lo) (skipn lo a).

(** [t[1:]], the abscissa of every plot. *)
Definition after_first {A : Type} (t : list A) : list A := skipn 1 t.

(** What one call of [animate] hands to the three [set_data]: the abscissa
    [t[1:frame+1]] and the three ordinates. *)
Record frame_data (F : Type) : Type := {
  frame_t : list F;
  frame_eel : list F;
  frame_host : list F;
  frame_predator : list F
}.
Arguments frame_t {F} _.
Arguments frame_eel {F} _.
Arguments frame_host {F} _.
Arguments frame_predator {F} _.

Section Animation.
Context {F : Type} `{Arith F}.

(** [states[:frame, k]]: the first [frame] entries of column [k] of the
    two-dimensional array. *)
Definition column_upto (states : list (list F)) (frame k : nat) : result (list F) :=
  c <- column states k ;;
  OK (slice c 0 frame).

(** lines 136-140 *)
Definition animate (t : list F) (states : list (list F)) (frame : nat)
  : result (frame_data F) :=
  c0 <- column_upto states frame 0 ;;
  c1 <- column_upto states frame 1 ;;
  c2 <- column_upto states frame 2 ;;
  c3 <- column_upto states frame 3 ;;
  OK {| frame_t := slice t 1 (frame + 1);
        frame_eel := elementwise add c0 c1;
        frame_host := c2;
        frame_predator := c3 |}.

(** line 142: [frames=len(t)-1] makes the animation call [animate] on
    [range(len(t)-1)]. *)
Definition frames (t : list F) : list nat := seq 0 (length t - 1).

End Animation.

(** A binary64 value that is a zero or NaN: not a number other than zero. *)
Definition zero_or_nan (x : float) : bool :=
  match Prim2SF x with
  | S754_zero _ | S754_nan => true
  | _ => false
  end.

(** ** 4. Vocabulary of the statements *)

(** The schedule [l] with the value at index [k] replaced by [v]. *)
Fixpoint set_index {A : Type} (l : list A) (k : nat) (v : A) : list A :=
  match l, k with
  | [], _ => []
  | _ :: l', 0 => v :: l'
  | x :: l', S k' => x :: set_index l' k' v
  end.

(** The initial condition of sub-interval [i]: the initial state for the
    first one, the previous entry of the trajectory afterwards. *)
Definition starts_from {F : Type} (init : list F) (traj : list (list F))
    (i : nat) (prev : list F) : Prop :=
  match i with
  | 0 => prev = init
  | S j => nth_error traj j = Some prev
  end.

(** Entry [i] of the trajectory is the solver's value at [t[i+1]] for the
    dynamics frozen at the regime [levels[i]], started at [t[i]] from the
    result of the sub-interval before. *)
Definition sub_interval_solved {F : Type} `{Arith F}
    (odeint : (list F -> F -> result (list F)) -> list F -> F -> F -> result (list F))
    (t levels init : list F) (traj : list (list F)) (i : nat) : Prop :=
  exists t_i t_i1 level prev next,
    nth_error t i = Some t_i /\
    nth_error t (i + 1) = Some t_i1 /\
    nth_error levels i = Some level /\
    starts_from init traj i prev /\
    nth_error traj i = Some next /\
    odeint (fun y s => ecosystem_model y s level) prev t_i t_i1 = OK next.


(** ** 5. Reading binary64 values *)

(** NumPy's [isfinite]: neither NaN nor an infinity. *)
Definition isfinite (x : float) : bool :=
  match Prim2SF x with
  | S754_zero _ | S754_finite _ _ _ => true
  | S754_infinity _ | S754_nan => false
  end.

(** NumPy's [isnan]. *)
Definition isnan (x : float) : bool :=
  match Prim2SF x with
  | S754_nan => true
  | _ => false
  end.

(** The rational number a finite binary64 value stands for. *)
Definition exact (x : float) : Q :=
  match Prim2SF x with
  | S754_finite s m e =>
      let z := if s then Zneg m else Zpos m in
      match e with
      | Zneg k => Qmake z (2 ^ k)
      | _ => inject_Z (z * 2 ^ e)
      end
  | _ => 0%Q
  end.

(** [x] is the decimal [q] to within 2^-54, half a unit in the last place of
    the binary64 numbers between 1/2 and 1. *)
Definition approx (x : float) (q : Q) : Prop :=
  (Qabs (exact x - q) <= Qmake 1 (2 ^ 54))%Q.

(** The decoding of the first number of a result, to tell two results apart. *)
Definition first_decoded (r : result (list float)) : option spec_float :=
  match r with
  | OK (x :: _) => Some (Prim2SF x)
  | _ => None
  end.

(** ** 6. Inputs used below *)

Local Open Scope float_scope.

(** line 50 *)
Definition initial_state : list float := [78; 22; 1000; 50].

(** The test vector of the specification's section 8. *)
Definition test_state : list float := [10; 10; 100; 5].

Definition scarce : float := 0.
Definition abundant : float := 1.

(** A schedule held at one regime over a grid of [n] points. *)
Definition held (regime : float) (n : nat) : list float := repeat regime n.

(** A grid of four points with the transition at its middle, as the
    reference scenario has it at index 100 of 200. *)
Definition grid : list float := [0; 0.25; 0.5; 0.75].
Definition schedule : list float := [scarce; scarce; abundant; abundant].

(** A schedule longer than [grid], one shorter, and a grid that decreases. *)
Definition long_schedule : list float := [scarce; scarce; abundant; abundant; abundant; abundant].
Definition short_schedule : list float := [scarce].
Definition decreasing_grid : list float := [0.75; 0.5; 0.25; 0].

(** A trajectory with two points where the parasite total is zero. *)
Definition degenerate_states : list (list float) :=
  [[0; 0; 5; 5]; [1; -1; 3; 3]; [1; 1; 1; 1]].

(** * Properties *)

(** ** The literals *)

(** The literals of the source, read by [float_lit], are the binary64
    numbers Python reads them as. *)
Example float_literals :
  (#0.5 = 0.5 /\ #0.78 = 0.78 /\ #0.56 = 0.56 /\ #1 = 1 /\ #0.8 = 0.8 /\
   #0.1 = 0.1 /\ #0.02 = 0.02 /\ #0.05 = 0.05 /\ #0.03 = 0.03 /\
   #0.04 = 0.04 /\ #0.2 = 0.2)%num%float.
Proof. repeat split; reflexivity. Qed.

(** Two concrete binary64 numbers differ when their decodings do. *)
Lemma float_neq (x y : float) : Prim2SF x <> Prim2SF y -> x <> y.
Proof. intros Hsf Heq. apply Hsf. now rewrite Heq. Qed.

Ltac float_differ := apply float_neq; vm_compute; discriminate.

Ltac results_differ :=
  let Heq := fresh "Heq" in
  intros Heq; apply (f_equal first_decoded) in Heq;
  vm_compute in Heq; discriminate Heq.

Ltac approx_by_computation :=
  unfold approx; apply Qle_bool_imp_le; vm_compute; reflexivity.

(** ** The dynamics function *)

Section DynamicsFacts.
Context {F : Type} `{Arith F}.
Local Open Scope num_scope.

(** C1. For every state (m, f, h, p) and every regime the parasite birth
    flux is 0.8 * f, credited to the male and the female rate by the two
    sex-allocation fractions, and one death term
    0.1*(m+f) + 0.02*p*(m+f) is subtracted from both rates.  The equation
    holds in any arithmetic, so in binary64 as the code groups it. *)
Theorem parasite_rates_split_birth_share_death :
  forall m f h p t resource_level : F,
    eel_birth f = #0.8 * f /\
    exists d_h d_p,
      ecosystem_model [m; f; h; p] t resource_level =
      OK [ male_ratio resource_level * (#0.8 * f)
             - (#0.1 * (m + f) + #0.02 * p * (m + f));
           female_ratio resource_level * (#0.8 * f)
             - (#0.1 * (m + f) + #0.02 * p * (m + f));
           d_h; d_p ].
Proof.
  intros m f h p t resource_level. split; [reflexivity|].
  eexists; eexists. cbn [ecosystem_model].
  unfold eel_birth, eel_death. reflexivity.
Qed.

(** C3. For every state and regime the host rate is
    0.5*h - (0.05*h + 0.03*(m+f)*h), the predator rate is
    0.04*p*(m+f) - 0.2*p, and the result lists the four rates in the order
    of the state: males, females, host, predator. *)
Theorem host_predator_rates_and_order :
  forall m f h p t resource_level : F,
    ecosystem_model [m; f; h; p] t resource_level =
    OK [ male_ratio resource_level * eel_birth f - eel_death m f p;
         female_ratio resource_level * eel_birth f - eel_death m f p;
         #0.5 * h - (#0.05 * h + #0.03 * (m + f) * h);
         #0.04 * p * (m + f) - #0.2 * p ].
Proof. intros. reflexivity. Qed.

(** C9. The dynamics function is a map of the state and the regime alone:
    two calls that differ only in the time argument return the same
    result, rates or exception. *)
Theorem ecosystem_model_ignores_time :
  forall (state : list F) (t1 t2 resource_level : F),
    ecosystem_model state t1 resource_level =
    ecosystem_model state t2 resource_level.
Proof.
  intros state t1 t2 resource_level.
  destruct state as [|m [|f [|h [|p [|x rest]]]]]; reflexivity.
Qed.

(** A state without exactly four components is refused by the unpacking. *)
Lemma ecosystem_model_wrong_size :
  forall (state : list F) (t resource_level : F),
    length state <> 4%nat ->
    ecosystem_model state t resource_level = Raise ValueError.
Proof.
  intros state t resource_level Hlen.
  destruct state as [|m [|f [|h [|p [|x rest]]]]]; try reflexivity.
  now contradiction Hlen.
Qed.

Lemma ecosystem_model_size :
  forall (state : list F) (t resource_level : F) (d : list F),
    ecosystem_model state t resource_level = OK d ->
    length state = 4%nat /\ length d = 4%nat.
Proof.
  intros state t resource_level d.
  destruct state as [|m [|f [|h [|p [|x rest]]]]]; cbn; try discriminate.
  intros [= <-]. split; reflexivity.
Qed.

End DynamicsFacts.

Local Open Scope float_scope.

(** C2. The sex-allocation fractions are a step function of the regime: at
    the scarce regime (0) the male fraction is the binary64 number 0.78 and
    the female fraction its complement, 78% and 22% to within binary64
    rounding; at the abundant regime (1) they are 0.56 and its complement,
    56% and 44%.  In exact arithmetic the four fractions are 78/100, 22/100,
    56/100 and 44/100. *)
Theorem sex_allocation_step :
  (male_ratio scarce = 0.78 /\ female_ratio scarce = 1 - 0.78 /\
   male_ratio abundant = 0.56 /\ female_ratio abundant = 1 - 0.56) /\
  (approx (male_ratio scarce) 0.78 /\ approx (female_ratio scarce) 0.22 /\
   approx (male_ratio abundant) 0.56 /\ approx (female_ratio abundant) 0.44) /\
  (male_ratio (Q2R 0) = Q2R 0.78 /\ female_ratio (Q2R 0) = Q2R 0.22 /\
   male_ratio (Q2R 1) = Q2R 0.56 /\ female_ratio (Q2R 1) = Q2R 0.44).
Proof.
  split; [|split].
  - repeat split; reflexivity.
  - repeat split; approx_by_computation.
  - unfold female_ratio, male_ratio; cbn [ltb lit sub real_arith]; unfold Rltb.
    repeat split;
      repeat match goal with |- context [Rlt_dec ?a ?b] => destruct (Rlt_dec a b) as [Hlt|Hlt] end;
      unfold Q2R in *; cbn in *; lra.
Qed.

(** C5. At the state [10, 10, 100, 5] under the scarce regime the male rate
    is the binary64 number 2.24, reached as 6.24 - 4.0 with
    6.24 = 0.78 * (0.8 * 10) and 4.0 = 0.1 * 20 + 0.02 * 5 * 20; in exact
    arithmetic it is 224/100. *)
Theorem male_rate_on_test_vector :
  (forall t : float,
      ecosystem_model test_state t scarce = OK [2.24; -2.24; -15; 3]) /\
  (0.78 * (0.8 * 10) = 6.24 /\ 0.1 * 20 + 0.02 * 5 * 20 = 4.0 /\
   6.24 - 4.0 = 2.24) /\
  (forall t : R, exists rates,
      ecosystem_model [Q2R 10; Q2R 10; Q2R 100; Q2R 5] t (Q2R 0) = OK rates /\
      nth 0 rates 0%R = Q2R 2.24).
Proof.
  split; [|split].
  - intros t. reflexivity.
  - repeat split; reflexivity.
  - intros t. eexists. split; [reflexivity|].
    cbn [nth]. unfold male_ratio, eel_birth, eel_death.
    cbn [ltb lit sub add mul real_arith]. unfold Rltb.
    destruct (Rlt_dec (Q2R 0) (Q2R 0.5)) as [Hlt|Hge];
      unfold Q2R in *; cbn in *; lra.
Qed.

(** C10, as stated, fails on the numbers the code computes: at the initial
    state of line 50 under the scarce regime the male and female rates are
    -96.27199999999999 and -106.128 and add up to -202.39999999999998, while
    0.8*f - 2*(0.1*(m+f) + 0.02*p*(m+f)) is -202.4. *)
Lemma rate_sum_identity_fails_in_binary64 :
  ecosystem_model initial_state 0 scarce
    = OK [-96.27199999999999; -106.128; -2550; 190] /\
  -96.27199999999999 + -106.128 = -202.39999999999998 /\
  0.8 * 22 - 2 * (0.1 * (78 + 22) + 0.02 * 50 * (78 + 22)) = -202.4 /\
  -96.27199999999999 + -106.128
    <> 0.8 * 22 - 2 * (0.1 * (78 + 22) + 0.02 * 50 * (78 + 22)).
Proof.
  repeat split; try reflexivity. float_differ.
Qed.

(** C10, amended.  For every regime value the two fractions add up to
    exactly 1, in binary64 and in exact arithmetic.  In exact arithmetic the
    births credited to the two classes add up to 0.8*f and the male and
    female rates add up to 0.8*f - 2*(0.1*(m+f) + 0.02*p*(m+f)), for every
    state and regime. *)
Theorem fractions_sum_to_one_rate_sum_exact :
  (forall resource_level : float,
      male_ratio resource_level + female_ratio resource_level = 1) /\
  (forall resource_level : R,
      (male_ratio resource_level + female_ratio resource_level = 1)%R) /\
  (forall m f h p t resource_level : R,
      (male_ratio resource_level * eel_birth f
       + female_ratio resource_level * eel_birth f = 0.8 * f)%R /\
      exists d_m d_f d_h d_p,
        ecosystem_model [m; f; h; p] t resource_level = OK [d_m; d_f; d_h; d_p] /\
        (d_m + d_f = 0.8 * f - 2 * (0.1 * (m + f) + 0.02 * p * (m + f)))%R).
Proof.
  split; [|split].
  - intros resource_level. unfold female_ratio, male_ratio.
    cbn [ltb lit sub float_arith].
    destruct (PrimFloat.ltb resource_level (float_lit 0.5)); reflexivity.
  - intros resource_level. unfold female_ratio, male_ratio.
    cbn [ltb lit sub real_arith]. unfold Rltb.
    destruct (Rlt_dec resource_level (Q2R 0.5)); unfold Q2R; cbn; lra.
  - intros m f h p t resource_level. split.
    + unfold female_ratio, male_ratio, eel_birth.
      cbn [ltb lit sub mul real_arith]. unfold Rltb.
      destruct (Rlt_dec resource_level (Q2R 0.5)); unfold Q2R; cbn; field.
    + do 4 eexists. split; [reflexivity|].
      unfold female_ratio, male_ratio, eel_birth, eel_death.
      cbn [ltb lit sub add mul real_arith]. unfold Rltb.
      destruct (Rlt_dec resource_level (Q2R 0.5)); unfold Q2R; cbn; field.
Qed.

Local Close Scope float_scope.

(** ** The integration loop *)

Lemma index_OK {A : Type} (a : list A) (i : nat) :
  i < length a -> exists x, nth_error a i = Some x /\ index a i = OK x.
Proof.
  intros Hlt. unfold index.
  destruct (nth_error a i) as [x|] eqn:E.
  - exists x. split; reflexivity.
  - apply nth_error_None in E. lia.
Qed.

Lemma index_past_end {A : Type} (a : list A) (i : nat) :
  length a <= i -> index a i = Raise IndexError.
Proof.
  intros Hle. unfold index.
  apply nth_error_None in Hle. now rewrite Hle.
Qed.

Lemma set_index_length {A : Type} (l : list A) (k : nat) (v : A) :
  length (set_index l k v) = length l.
Proof.
  revert k. induction l as [|x l IH]; intros [|k]; cbn; auto.
Qed.

Lemma set_index_other {A : Type} (l : list A) (k j : nat) (v : A) :
  j <> k -> nth_error (set_index l k v) j = nth_error l j.
Proof.
  revert k j. induction l as [|x l IH]; intros [|k] [|j] Hne; cbn; auto.
  now contradiction Hne.
Qed.

Section IntegratorFacts.
Context {F : Type} `{Arith F}.
Variable odeint : (list F -> F -> result (list F)) -> list F -> F -> F -> result (list F).
Hypothesis solver_ok : solver_returns odeint.

(** The loop over [k, k+n) when the grid and the schedule reach that far:
    it ends without exception, appends [n] states, each solved from the
    one before. *)
Lemma integration_loop_seq (t levels : list F) :
  forall n k current_state states,
    length current_state = 4 ->
    k + n <= length t - 1 ->
    k + n <= length levels ->
    exists traj,
      integration_loop odeint t levels (seq k n) current_state states
        = {| trajectory := states ++ traj; raised := None |} /\
      length traj = n /\
      forall j, j < n ->
        exists t_i t_i1 level prev next,
          nth_error t (k + j) = Some t_i /\
          nth_error t (k + j + 1) = Some t_i1 /\
          nth_error levels (k + j) = Some level /\
          starts_from current_state traj j prev /\
          nth_error traj j = Some next /\
          odeint (fun y s => ecosystem_model y s level) prev t_i t_i1 = OK next.
Proof.
  induction n as [|n IH]; intros k current_state states Hcur Ht Hl.
  - exists []. cbn. rewrite app_nil_r. repeat split; auto. intros j Hj. lia.
  - destruct (index_OK t k) as (t_i & Eti & Iti); [lia|].
    destruct (index_OK t (k + 1)) as (t_i1 & Eti1 & Iti1); [lia|].
    destruct (index_OK levels k) as (level & Elv & Ilv); [lia|].
    destruct (solver_ok level current_state t_i t_i1 Hcur) as (y' & Hy' & Hlen').
    destruct (IH (S k) y' (states ++ [y']) Hlen') as (traj & Hrun & Hlen & Hpt); [lia|lia|].
    exists (y' :: traj). split; [|split].
    + cbn [seq integration_loop]. unfold loop_body.
      rewrite Iti, Iti1, Ilv. cbn [bind]. rewrite Hy'.
      rewrite Hrun. now rewrite <- app_assoc.
    + cbn. now rewrite Hlen.
    + intros [|j] Hj.
      * exists t_i, t_i1, level, current_state, y'.
        rewrite Nat.add_0_r. repeat split; auto.
      * destruct (Hpt j) as (a & b & lv & prev & next & Ha & Hb & Hlv & Hprev & Hnext & Hsol); [lia|].
        exists a, b, lv, prev, next.
        replace (k + S j) with (S k + j) by lia.
        repeat split; auto.
        destruct j as [|j]; cbn in *; congruence.
Qed.

(** Two trajectories solved sub-interval by sub-interval over one grid from
    one initial state agree up to entry [i] when their schedules agree up
    to index [i]. *)
Lemma solved_prefix_agree (t levels levels' init : list F) (traj traj' : list (list F)) (n : nat) :
  (forall j, j < n -> sub_interval_solved odeint t levels init traj j) ->
  (forall j, j < n -> sub_interval_solved odeint t levels' init traj' j) ->
  forall i, i < n ->
    (forall j, j <= i -> nth_error levels' j = nth_error levels j) ->
    nth_error traj' i = nth_error traj i.
Proof.
  intros Hs Hs'. induction i as [|i IH]; intros Hi Hagree.
  - destruct (Hs 0 Hi) as (a & b & lv & prev & next & Ha & Hb & Hlv & Hprev & Hnext & Hsol).
    destruct (Hs' 0 Hi) as (a' & b' & lv' & prev' & next' & Ha' & Hb' & Hlv' & Hprev' & Hnext' & Hsol').
    cbn in Hprev, Hprev'. subst prev prev'.
    rewrite (Hagree 0 (Nat.le_refl 0)) in Hlv'.
    assert (a' = a) by congruence. assert (b' = b) by congruence.
    assert (lv' = lv) by congruence. subst a' b' lv'.
    rewrite Hnext, Hnext'. congruence.
  - destruct (Hs (S i) Hi) as (a & b & lv & prev & next & Ha & Hb & Hlv & Hprev & Hnext & Hsol).
    destruct (Hs' (S i) Hi) as (a' & b' & lv' & prev' & next' & Ha' & Hb' & Hlv' & Hprev' & Hnext' & Hsol').
    cbn in Hprev, Hprev'.
    assert (Hrec : nth_error traj' i = nth_error traj i).
    { apply IH; [lia|]. intros j Hj. apply Hagree. lia. }
    rewrite (Hagree (S i) (Nat.le_refl (S i))) in Hlv'.
    assert (prev' = prev) by congruence.
    assert (a' = a) by congruence. assert (b' = b) by congruence.
    assert (lv' = lv) by congruence. subst a' b' lv' prev'.
    rewrite Hnext, Hnext'. congruence.
Qed.

(** A run over a grid of at least two points with a schedule that reaches
    index [N-2] ends without exception after [N-1] sub-intervals. *)
Lemma simulate_completes (t levels init : list F) :
  length init = 4 ->
  length t - 1 <= length levels ->
  exists traj,
    simulate odeint t levels init = {| trajectory := traj; raised := None |} /\
    length traj = length t - 1 /\
    forall i, i < length t - 1 -> sub_interval_solved odeint t levels init traj i.
Proof.
  intros Hinit Hlv. unfold simulate.
  destruct (integration_loop_seq t levels (length t - 1) 0 init [] Hinit)
    as (traj & Hrun & Hlen & Hpt); [lia|lia|].
  exists traj. split; [exact Hrun|]. split; [exact Hlen|].
  intros i Hi. exact (Hpt i Hi).
Qed.

(** The loop over [k, k+n) when the schedule ends inside that range: the
    sub-intervals the schedule covers are integrated, then the missing
    [resource_levels[i]] raises IndexError. *)
Lemma integration_loop_short (t levels : list F) :
  forall n k current_state states,
    length current_state = 4 ->
    k + n <= length t - 1 ->
    k <= length levels ->
    length levels < k + n ->
    exists traj,
      integration_loop odeint t levels (seq k n) current_state states
        = {| trajectory := states ++ traj; raised := Some IndexError |} /\
      length traj = length levels - k.
Proof.
  induction n as [|n IH]; intros k current_state states Hcur Ht Hk Hl; [lia|].
  destruct (index_OK t k) as (t_i & Eti & Iti); [lia|].
  destruct (index_OK t (k + 1)) as (t_i1 & Eti1 & Iti1); [lia|].
  cbn [seq integration_loop]. unfold loop_body. rewrite Iti, Iti1. cbn [bind].
  destruct (Nat.eq_dec k (length levels)) as [Heq|Hne].
  - rewrite (index_past_end levels k) by lia. cbn [bind].
    exists []. rewrite app_nil_r. split; [reflexivity|]. cbn. lia.
  - destruct (index_OK levels k) as (level & Elv & Ilv); [lia|].
    rewrite Ilv. cbn [bind].
    destruct (solver_ok level current_state t_i t_i1 Hcur) as (y' & Hy' & Hlen').
    rewrite Hy'.
    destruct (IH (S k) y' (states ++ [y']) Hlen') as (traj & Hrun & Hlen); [lia|lia|lia|].
    exists (y' :: traj). rewrite Hrun, <- app_assoc. split; [reflexivity|].
    cbn. rewrite Hlen. lia.
Qed.

End IntegratorFacts.

(** The loop only appends to the buffer, whatever the solver does. *)
Lemma integration_loop_extends {F : Type} `{Arith F}
    (odeint : (list F -> F -> result (list F)) -> list F -> F -> F -> result (list F))
    (t levels : list F) :
  forall range current_state states,
    exists rest,
      trajectory (integration_loop odeint t levels range current_state states)
      = states ++ rest.
Proof.
  induction range as [|i range IH]; intros current_state states; cbn [integration_loop].
  - exists []. cbn. now rewrite app_nil_r.
  - destruct (loop_body odeint t levels i current_state) as [y|e].
    + destruct (IH y (states ++ [y])) as (rest & Hrest).
      exists (y :: rest). rewrite Hrest. now rewrite <- app_assoc.
    + exists []. cbn. now rewrite app_nil_r.
Qed.

(** C4. For a grid of N >= 2 points, a schedule of N values and an initial
    state of four components, with a solver that returns on every
    sub-interval, the loop ends without exception with exactly N-1 states;
    entry [i], the state at grid point [i+1], is the solver's value over
    [t[i], t[i+1]] for the dynamics frozen at the regime [levels[i]] sampled
    at the start index, started from the previous sub-interval's result (the
    initial state for the first); and replacing the schedule's value at
    index [i+1] alone leaves the state at grid point [i+1] as it was. *)
Theorem integrator_holds_regime_at_interval_start :
  forall (F : Type) (AF : Arith F)
         (odeint : (list F -> F -> result (list F)) -> list F -> F -> F -> result (list F))
         (t levels init : list F),
    solver_returns odeint ->
    length init = 4 ->
    2 <= length t ->
    length levels = length t ->
    exists traj,
      simulate odeint t levels init = {| trajectory := traj; raised := None |} /\
      length traj = length t - 1 /\
      (forall i, i < length t - 1 -> sub_interval_solved odeint t levels init traj i) /\
      (forall i v, i < length t - 1 ->
         nth_error (trajectory (simulate odeint t (set_index levels (i + 1) v) init)) i
         = nth_error traj i).
Proof.
  intros F AF odeint t levels init Hsolver Hinit Ht Hlv.
  destruct (simulate_completes odeint Hsolver t levels init Hinit)
    as (traj & Hrun & Hlen & Hpt); [lia|].
  exists traj. split; [exact Hrun|]. split; [exact Hlen|]. split; [exact Hpt|].
  intros i v Hi.
  destruct (simulate_completes odeint Hsolver t (set_index levels (i + 1) v) init Hinit)
    as (traj' & Hrun' & Hlen' & Hpt'); [rewrite set_index_length; lia|].
  rewrite Hrun'. cbn [trajectory].
  apply (solved_prefix_agree odeint t levels (set_index levels (i + 1) v) init
           traj traj' (length t - 1) Hpt Hpt' i Hi).
  intros j Hj. apply set_index_other. lia.
Qed.

(** Whatever the solver, two runs over one grid from one initial state
    differ as soon as the solver's answers on the first sub-interval do. *)
Lemma first_step_decides {F : Type} `{Arith F}
    (odeint : (list F -> F -> result (list F)) -> list F -> F -> F -> result (list F))
    (a b : F) (rest levels levels' init : list F) (lv lv' : F) :
  nth_error levels 0 = Some lv ->
  nth_error levels' 0 = Some lv' ->
  odeint (fun y s => ecosystem_model y s lv) init a b
    <> odeint (fun y s => ecosystem_model y s lv') init a b ->
  simulate odeint (a :: b :: rest) levels init
    <> simulate odeint (a :: b :: rest) levels' init.
Proof.
  intros Hlv Hlv' Hne Hrun. apply Hne. clear Hne.
  unfold simulate in Hrun.
  replace (length (a :: b :: rest) - 1) with (S (length rest)) in Hrun by (cbn; lia).
  cbn [seq integration_loop] in Hrun. unfold loop_body, index in Hrun.
  rewrite Hlv, Hlv' in Hrun. cbn [nth_error Nat.add bind app] in Hrun.
  set (f := fun y s => ecosystem_model y s lv) in *.
  set (f' := fun y s => ecosystem_model y s lv') in *.
  destruct (odeint f init a b) as [y|e], (odeint f' init a b) as [y'|e'].
  - destruct (integration_loop_extends odeint (a :: b :: rest) levels
                (seq 1 (length rest)) y [y]) as (r & Hr).
    destruct (integration_loop_extends odeint (a :: b :: rest) levels'
                (seq 1 (length rest)) y' [y']) as (r' & Hr').
    rewrite Hrun, Hr' in Hr. cbn in Hr. congruence.
  - destruct (integration_loop_extends odeint (a :: b :: rest) levels
                (seq 1 (length rest)) y [y]) as (r & Hr).
    rewrite Hrun in Hr. discriminate Hr.
  - destruct (integration_loop_extends odeint (a :: b :: rest) levels'
                (seq 1 (length rest)) y' [y']) as (r' & Hr').
    rewrite <- Hrun in Hr'. discriminate Hr'.
  - congruence.
Qed.

(** The fixed-step solver returns on every four-component sub-problem. *)
Lemma euler_returns {F : Type} `{Arith F} : solver_returns (euler (F := F)).
Proof.
  intros level y t0 t1 Hlen.
  destruct y as [|m [|f [|h [|p [|x rest]]]]]; try discriminate Hlen.
  unfold euler. cbn [ecosystem_model bind combine map].
  eexists. split; reflexivity.
Qed.

Local Open Scope float_scope.

(** The theorem at the four-point grid with the transition at its middle,
    from the initial state of line 50, with the fixed-step solver. *)
Lemma integrator_holds_regime_witness :
  solver_returns (euler (F := float)) /\
  length initial_state = 4%nat /\
  (2 <= length grid)%nat /\
  length schedule = length grid /\
  exists traj,
    simulate euler grid schedule initial_state = {| trajectory := traj; raised := None |} /\
    length traj = (length grid - 1)%nat /\
    (forall i, (i < length grid - 1)%nat ->
       sub_interval_solved euler grid schedule initial_state traj i) /\
    (forall i v, (i < length grid - 1)%nat ->
       nth_error (trajectory (simulate euler grid (set_index schedule (i + 1) v) initial_state)) i
       = nth_error traj i).
Proof.
  split; [apply euler_returns|].
  split; [reflexivity|].
  split; [cbn; lia|].
  split; [reflexivity|].
  apply (integrator_holds_regime_at_interval_start float float_arith euler
           grid schedule initial_state);
    [apply euler_returns | reflexivity | cbn; lia | reflexivity].
Defined.

(** C6, as stated, fails.  A schedule of six values over a grid of four
    points is not rejected: the run ends without exception with its three
    states.  Neither is a decreasing grid. *)
Lemma mismatched_inputs_are_accepted :
  length grid <> length long_schedule /\
  raised (simulate euler grid long_schedule initial_state) = None /\
  length (trajectory (simulate euler grid long_schedule initial_state)) = 3%nat /\
  (nth 1 decreasing_grid 0 <? nth 0 decreasing_grid 0) = true /\
  raised (simulate euler decreasing_grid schedule initial_state) = None /\
  length (trajectory (simulate euler decreasing_grid schedule initial_state)) = 3%nat.
Proof.
  split; [cbn; discriminate|]. repeat split; reflexivity.
Qed.

(** C6, amended.  Nothing is validated before the loop.  With a solver that
    returns and an initial state of four components the loop integrates
    min(len(schedule), N-1) sub-intervals, whatever the order of the grid;
    it then ends without exception when the schedule has at least N-1
    values, of whatever length, and raises IndexError at the first missing
    schedule index otherwise.  A state without exactly four components makes
    the dynamics function raise ValueError when it is called. *)
Theorem inputs_are_checked_only_where_used :
  forall (F : Type) (AF : Arith F)
         (odeint : (list F -> F -> result (list F)) -> list F -> F -> F -> result (list F))
         (t levels init : list F),
    solver_returns odeint ->
    length init = 4%nat ->
    raised (simulate odeint t levels init)
      = (if (length levels <? length t - 1)%nat then Some IndexError else None) /\
    length (trajectory (simulate odeint t levels init))
      = Nat.min (length levels) (length t - 1) /\
    (forall (state : list F) (u level : F),
        length state <> 4%nat <-> ecosystem_model state u level = Raise ValueError).
Proof.
  intros F AF odeint t levels init Hsolver Hinit.
  split; [|split].
  - destruct (Nat.ltb_spec (length levels) (length t - 1)) as [Hshort|Hlong].
    + unfold simulate.
      destruct (integration_loop_short odeint Hsolver t levels (length t - 1) 0 init [] Hinit)
        as (traj & Hrun & Hlen); [lia|lia|lia|].
      now rewrite Hrun.
    + destruct (simulate_completes odeint Hsolver t levels init Hinit Hlong)
        as (traj & Hrun & Hlen & _).
      now rewrite Hrun.
  - destruct (Nat.ltb_spec (length levels) (length t - 1)) as [Hshort|Hlong].
    + unfold simulate.
      destruct (integration_loop_short odeint Hsolver t levels (length t - 1) 0 init [] Hinit)
        as (traj & Hrun & Hlen); [lia|lia|lia|].
      rewrite Hrun. cbn [trajectory app]. lia.
    + destruct (simulate_completes odeint Hsolver t levels init Hinit Hlong)
        as (traj & Hrun & Hlen & _).
      rewrite Hrun. cbn [trajectory]. lia.
  - intros state u level. split.
    + apply ecosystem_model_wrong_size.
    + intros Hraise Hlen.
      destruct state as [|m [|f [|h [|p [|x rest]]]]]; try discriminate Hlen.
      discriminate Hraise.
Qed.

(** The theorem at a schedule of one value over the four-point grid: one
    sub-interval is integrated, then IndexError. *)
Lemma inputs_are_checked_only_where_used_witness :
  solver_returns (euler (F := float)) /\
  length initial_state = 4%nat /\
  raised (simulate euler grid short_schedule initial_state)
    = (if (length short_schedule <? length grid - 1)%nat then Some IndexError else None) /\
  length (trajectory (simulate euler grid short_schedule initial_state))
    = Nat.min (length short_schedule) (length grid - 1) /\
  (forall (state : list float) (u level : float),
      length state <> 4%nat <-> ecosystem_model state u level = Raise ValueError).
Proof.
  split; [apply euler_returns|].
  split; [reflexivity|].
  apply (inputs_are_checked_only_where_used float float_arith euler
           grid short_schedule initial_state);
    [apply euler_returns | reflexivity].
Defined.

(** The two runs of C8 and the run of the reference schedule, with the
    fixed-step solver. *)
Example runs_on_grid :
  trajectory (simulate euler grid (held scarce 4) initial_state)
    = [[53.932; -4.532; 362.5; 97.5];
       [27.907508; -30.048908; 268.975; 140.79000000000002];
       [24.780851882; -29.810086422; 303.5545604875; 130.73562294]] /\
  trajectory (simulate euler grid (held abundant 4) initial_state)
    = [[52.964; -3.564; 362.5; 97.5];
       [27.247332; -29.195131999999997; 268.975; 140.79];
       [25.397326025999998; -30.344454805999998; 303.16400878750005; 131.00819238]] /\
  trajectory (simulate euler grid schedule initial_state)
    = [[53.932; -4.532; 362.5; 97.5];
       [27.907508; -30.048908; 268.975; 140.79000000000002];
       [26.103003834; -31.132238374; 303.5545604875; 130.73562294]].
Proof. repeat split; reflexivity. Qed.

(** C8. There are an initial state and a grid, those of the script's
    line 50 and a four-point grid, from which the run with the schedule held
    at scarce and the run with it held at abundant give different
    trajectories: the two regimes give the dynamics function different rates
    at the initial state, so the solver's first states differ (male counts
    53.932 and 52.964), and with them the trajectories. *)
Theorem held_scarce_differs_from_held_abundant :
  exists (init t : list float),
    (2 <= length t)%nat /\
    (forall u, ecosystem_model init u scarce <> ecosystem_model init u abundant) /\
    raised (simulate euler t (held scarce (length t)) init) = None /\
    raised (simulate euler t (held abundant (length t)) init) = None /\
    simulate euler t (held scarce (length t)) init
      <> simulate euler t (held abundant (length t)) init.
Proof.
  exists initial_state, grid.
  split; [cbn; lia|]. split; [|split; [reflexivity|split; [reflexivity|]]].
  - intros u. results_differ.
  - apply (first_step_decides euler 0 0.25 [0.5; 0.75]
             (held scarce 4) (held abundant 4) initial_state scarce abundant);
      [reflexivity | reflexivity |].
    results_differ.
Qed.

(** ** The derived series *)

Section DerivedFacts.
Context {F : Type} `{Arith F}.

Lemma traverse_index (states : list (list F)) (k : nat) (d : F) :
  Forall (fun row => (k < length row)%nat) states ->
  traverse (fun row => index row k) states
    = OK (map (fun row => nth k row d) states).
Proof.
  induction 1 as [|row states Hrow _ IH]; [reflexivity|].
  cbn [traverse map]. unfold index at 1.
  rewrite (nth_error_nth' row d Hrow). cbn [bind].
  rewrite IH. reflexivity.
Qed.

Lemma column_of_rows (states : list (list F)) (k : nat) (d : F) :
  states <> [] ->
  Forall (fun row => length row = 4%nat) states ->
  (k < 4)%nat ->
  column states k = OK (map (fun row => nth k row d) states).
Proof.
  intros Hne Hrows Hk. unfold column.
  destruct states as [|row states]; [now contradiction Hne|].
  apply traverse_index.
  eapply Forall_impl; [|exact Hrows].
  cbn. intros r Hr. rewrite Hr. exact Hk.
Qed.

Lemma elementwise_map (op : F -> F -> F) (g1 g2 : list F -> F) (states : list (list F)) :
  elementwise op (map g1 states) (map g2 states)
    = map (fun row => op (g1 row) (g2 row)) states.
Proof.
  unfold elementwise. induction states as [|row states IH]; [reflexivity|].
  cbn [map combine fst snd]. now rewrite IH.
Qed.

End DerivedFacts.

(** Comparing equal to zero means being one of the two zeros. *)
Lemma zero_decoded (x : float) :
  (x =? 0) = true -> exists s, Prim2SF x = S754_zero s.
Proof.
  rewrite FloatAxioms.eqb_spec.
  replace (Prim2SF 0) with (S754_zero false) by reflexivity.
  destruct (Prim2SF x) as [s|s| |s m e]; cbn.
  - intros _. now exists s.
  - destruct s; discriminate.
  - discriminate.
  - destruct s; discriminate.
Qed.

(** IEEE-754 division by a zero gives NaN or an infinity. *)
Lemma division_by_zero_not_finite (m x : float) :
  (x =? 0) = true -> isfinite (m / x) = false.
Proof.
  intros Hx. destruct (zero_decoded x Hx) as (s & Hs).
  unfold isfinite. rewrite FloatAxioms.div_spec, Hs.
  destruct (Prim2SF m) as [sm|sm| |sm mm em]; reflexivity.
Qed.

Lemma zero_over_zero_is_nan (m x : float) :
  (m =? 0) = true -> (x =? 0) = true -> isnan (m / x) = true.
Proof.
  intros Hm Hx.
  destruct (zero_decoded m Hm) as (sm & Hsm).
  destruct (zero_decoded x Hx) as (s & Hs).
  unfold isnan. rewrite FloatAxioms.div_spec, Hsm, Hs. reflexivity.
Qed.

Lemma zero_is_finite (x : float) : (x =? 0) = true -> isfinite x = true.
Proof.
  intros Hx. destruct (zero_decoded x Hx) as (s & Hs).
  unfold isfinite. now rewrite Hs.
Qed.

(** C7. Over a trajectory of four-component states, at every point where
    the parasite total males + females is zero, the male-fraction series
    holds a value that is not a finite number (NaN when males is zero too,
    an infinity otherwise); no exception is raised: the male-fraction, total,
    host and predator series are all produced, as long as the trajectory,
    and at that point the total is the zero and the host and predator
    entries are those of the state. *)
Theorem zero_total_gives_sentinel_ratio :
  forall states : list (list float),
    states <> [] ->
    Forall (fun row => length row = 4%nat) states ->
    exists ratio total hosts predators,
      male_ratio_series states = OK ratio /\
      eel_total_series states = OK total /\
      host_series states = OK hosts /\
      predator_series states = OK predators /\
      length ratio = length states /\
      length total = length states /\
      forall i m f h p,
        nth_error states i = Some [m; f; h; p] ->
        (m + f =? 0) = true ->
        exists r,
          nth_error ratio i = Some r /\
          isfinite r = false /\
          ((m =? 0) = true -> isnan r = true) /\
          nth_error total i = Some (m + f) /\
          isfinite (m + f) = true /\
          nth_error hosts i = Some h /\
          nth_error predators i = Some p.
Proof.
  intros states Hne Hrows.
  unfold male_ratio_series, eel_total_series, host_series, predator_series.
  rewrite (column_of_rows states 0 0 Hne Hrows) by lia.
  rewrite (column_of_rows states 1 0 Hne Hrows) by lia.
  rewrite (column_of_rows states 2 0 Hne Hrows) by lia.
  rewrite (column_of_rows states 3 0 Hne Hrows) by lia.
  cbn [bind]. rewrite !elementwise_map.
  do 4 eexists.
  split; [reflexivity|]. split; [reflexivity|].
  split; [reflexivity|]. split; [reflexivity|].
  split; [apply length_map|]. split; [apply length_map|].
  intros i m f h p Hrow Hzero.
  exists (m / (m + f)).
  rewrite !nth_error_map, Hrow. cbn [option_map nth add div float_arith].
  split; [reflexivity|].
  split; [now apply division_by_zero_not_finite|].
  split; [intros Hm; now apply zero_over_zero_is_nan|].
  split; [reflexivity|].
  split; [now apply zero_is_finite|].
  split; reflexivity.
Qed.

(** The theorem at a trajectory whose first two points have a zero total. *)
Lemma zero_total_gives_sentinel_ratio_witness :
  degenerate_states <> [] /\
  Forall (fun row => length row = 4%nat) degenerate_states /\
  exists ratio total hosts predators,
    male_ratio_series degenerate_states = OK ratio /\
    eel_total_series degenerate_states = OK total /\
    host_series degenerate_states = OK hosts /\
    predator_series degenerate_states = OK predators /\
    length ratio = length degenerate_states /\
    length total = length degenerate_states /\
    forall i m f h p,
      nth_error degenerate_states i = Some [m; f; h; p] ->
      (m + f =? 0) = true ->
      exists r,
        nth_error ratio i = Some r /\
        isfinite r = false /\
        ((m =? 0) = true -> isnan r = true) /\
        nth_error total i = Some (m + f) /\
        isfinite (m + f) = true /\
        nth_error hosts i = Some h /\
        nth_error predators i = Some p.
Proof.
  split; [discriminate|].
  split; [repeat constructor|].
  apply (zero_total_gives_sentinel_ratio degenerate_states);
    [discriminate | repeat constructor].
Defined.

(** On the trajectory [degenerate_states] the series are [nan, inf, 0.5]
    and [0, 0, 2]. *)
Example degenerate_series :
  male_ratio_series degenerate_states = OK [nan; infinity; 0.5] /\
  eel_total_series degenerate_states = OK [0; 0; 2].
Proof. split; reflexivity. Qed.

(** * Further properties of the code *)

Local Close Scope float_scope.

(** ** The integration loop, whatever the solver *)

Lemma seq_from (a : nat) : forall len s, seq (a + s) len = map (Nat.add a) (seq s len).
Proof.
  induction len as [|len IH]; intros s; [reflexivity|].
  cbn [seq map]. f_equal. rewrite <- IH. f_equal. lia.
Qed.

Section LoopFacts.
Context {F : Type} `{Arith F}.
Variable odeint : (list F -> F -> result (list F)) -> list F -> F -> F -> result (list F).

(** One turn of the loop reads the grid at [i] and [i+1] and the schedule at
    [i], nothing else. *)
Lemma loop_body_reads (t t' levels levels' : list F) (i : nat) (current_state : list F) :
  nth_error t i = nth_error t' i ->
  nth_error t (i + 1) = nth_error t' (i + 1) ->
  nth_error levels i = nth_error levels' i ->
  loop_body odeint t levels i current_state = loop_body odeint t' levels' i current_state.
Proof.
  intros Ht Ht1 Hl. unfold loop_body, index. now rewrite Ht, Ht1, Hl.
Qed.

Lemma integration_loop_reads (t t' levels levels' : list F) :
  forall range,
    (forall i, In i range ->
       nth_error t i = nth_error t' i /\
       nth_error t (i + 1) = nth_error t' (i + 1) /\
       nth_error levels i = nth_error levels' i) ->
    forall current_state states,
      integration_loop odeint t levels range current_state states
      = integration_loop odeint t' levels' range current_state states.
Proof.
  induction range as [|i range IH]; intros Hagree current_state states; [reflexivity|].
  cbn [integration_loop].
  destruct (Hagree i (or_introl eq_refl)) as (Ht & Ht1 & Hl).
  rewrite (loop_body_reads t t' levels levels' i current_state Ht Ht1 Hl).
  destruct (loop_body odeint t' levels' i current_state) as [y|e]; [|reflexivity].
  apply IH. intros j Hj. apply Hagree. now right.
Qed.

(** What is in the buffer before the loop stays in front of what the loop
    appends, and does not influence it. *)
Lemma integration_loop_buffer (t levels : list F) :
  forall range current_state before states,
    integration_loop odeint t levels range current_state (before ++ states)
    = {| trajectory :=
           before ++ trajectory (integration_loop odeint t levels range current_state states);
         raised := raised (integration_loop odeint t levels range current_state states) |}.
Proof.
  induction range as [|i range IH]; intros current_state before states;
    cbn [integration_loop]; [reflexivity|].
  destruct (loop_body odeint t levels i current_state) as [y|e]; [|reflexivity].
  rewrite <- app_assoc. apply IH.
Qed.

(** The loop over two ranges in a row: the second part starts from the last
    state the first part stored, unless the first part raised. *)
Lemma integration_loop_app (t levels init : list F) (range2 : list nat) :
  forall range1 current_state states,
    current_state = last states init ->
    integration_loop odeint t levels (range1 ++ range2) current_state states
    = match raised (integration_loop odeint t levels range1 current_state states) with
      | Some _ => integration_loop odeint t levels range1 current_state states
      | None =>
          integration_loop odeint t levels range2
            (last (trajectory (integration_loop odeint t levels range1 current_state states)) init)
            (trajectory (integration_loop odeint t levels range1 current_state states))
      end.
Proof.
  induction range1 as [|i range1 IH]; intros current_state states Hlast.
  - cbn. now rewrite <- Hlast.
  - cbn [app integration_loop].
    destruct (loop_body odeint t levels i current_state) as [y|e]; [|reflexivity].
    apply IH. now rewrite last_last.
Qed.

(** The loop over the indices [a + i] is the loop over the indices [i] on
    the grid and the schedule without their first [a] entries. *)
Lemma integration_loop_shift (t levels : list F) (a : nat) :
  forall range current_state states,
    integration_loop odeint t levels (map (Nat.add a) range) current_state states
    = integration_loop odeint (skipn a t) (skipn a levels) range current_state states.
Proof.
  induction range as [|i range IH]; intros current_state states; [reflexivity|].
  cbn [map integration_loop].
  assert (Hbody : loop_body odeint t levels (a + i) current_state
                  = loop_body odeint (skipn a t) (skipn a levels) i current_state).
  { unfold loop_body, index. rewrite !nth_error_skipn.
    now replace (a + i + 1) with (a + (i + 1)) by lia. }
  rewrite Hbody.
  destruct (loop_body odeint (skipn a t) (skipn a levels) i current_state) as [y|e];
    [apply IH | reflexivity].
Qed.

(** The buffer grows by one state per turn until an exception stops the
    loop. *)
Lemma integration_loop_length (t levels : list F) :
  forall range current_state states,
    length (trajectory (integration_loop odeint t levels range current_state states))
      <= length states + length range /\
    (raised (integration_loop odeint t levels range current_state states) = None <->
     length (trajectory (integration_loop odeint t levels range current_state states))
       = length states + length range).
Proof.
  induction range as [|i range IH]; intros current_state states; cbn [integration_loop].
  - cbn. split; [lia|]. split; [lia|reflexivity].
  - destruct (loop_body odeint t levels i current_state) as [y|e].
    + destruct (IH y (states ++ [y])) as (Hle & Hiff).
      rewrite length_app in Hle, Hiff. cbn [length] in *.
      split; [lia|]. rewrite Hiff. lia.
    + cbn. split; [lia|]. split; [discriminate|lia].
Qed.

(** The run over the first [k+1] grid points is the loop over the first [k]
    indices of the whole grid. *)
Lemma simulate_firstn (t levels init : list F) (k : nat) :
  k <= length t - 1 ->
  simulate odeint (firstn (k + 1) t) levels init
  = integration_loop odeint t levels (seq 0 k) init [].
Proof.
  intros Hk. unfold simulate.
  replace (length (firstn (k + 1) t) - 1) with k by (rewrite length_firstn; lia).
  apply integration_loop_reads.
  intros i Hi. apply in_seq in Hi.
  rewrite !nth_error_firstn.
  destruct (Nat.ltb_spec i (k + 1)); [|lia].
  destruct (Nat.ltb_spec (i + 1) (k + 1)); [|lia].
  repeat split; reflexivity.
Qed.

End LoopFacts.

(** X1. The loop never reads the schedule at an index from [len(t)-1] on:
    two schedules that agree below that index give the same run, states and
    exception alike, with any solver.  In particular the last value of a
    schedule as long as the grid is never used. *)
Theorem schedule_tail_is_never_read :
  forall (F : Type) (AF : Arith F)
         (odeint : (list F -> F -> result (list F)) -> list F -> F -> F -> result (list F))
         (t levels levels' init : list F),
    (forall i, i < length t - 1 -> nth_error levels i = nth_error levels' i) ->
    simulate odeint t levels init = simulate odeint t levels' init.
Proof.
  intros F AF odeint t levels levels' init Hagree. unfold simulate.
  apply integration_loop_reads.
  intros i Hi. apply in_seq in Hi.
  repeat split; try reflexivity. apply Hagree. lia.
Qed.

(** X2. No silent truncation: with any solver the run stores at most
    [len(t)-1] states, and it stores exactly that many if and only if no
    exception stopped the loop. *)
Theorem trajectory_is_complete_iff_no_exception :
  forall (F : Type) (AF : Arith F)
         (odeint : (list F -> F -> result (list F)) -> list F -> F -> F -> result (list F))
         (t levels init : list F),
    length (trajectory (simulate odeint t levels init)) <= length t - 1 /\
    (raised (simulate odeint t levels init) = None <->
     length (trajectory (simulate odeint t levels init)) = length t - 1).
Proof.
  intros F AF odeint t levels init. unfold simulate.
  destruct (integration_loop_length odeint t levels (seq 0 (length t - 1)) init [])
    as (Hle & Hiff).
  rewrite length_seq in Hle, Hiff. cbn [length Nat.add] in Hle, Hiff.
  split; assumption.
Qed.

(** X3. Restart.  When the run over the first [k+1] grid points ends without
    exception, the run over the whole grid is that run followed by the run
    over the grid and the schedule from index [k] on, started from the last
    state of the first run (from the initial state when [k = 0]): the
    trajectories are concatenated and the exception, if any, is the second
    run's. *)
Theorem run_splits_at_any_grid_point :
  forall (F : Type) (AF : Arith F)
         (odeint : (list F -> F -> result (list F)) -> list F -> F -> F -> result (list F))
         (t levels init : list F) (k : nat),
    k <= length t - 1 ->
    raised (simulate odeint (firstn (k + 1) t) levels init) = None ->
    simulate odeint t levels init
    = {| trajectory :=
           trajectory (simulate odeint (firstn (k + 1) t) levels init)
           ++ trajectory (simulate odeint (skipn k t) (skipn k levels)
                            (last (trajectory (simulate odeint (firstn (k + 1) t) levels init)) init));
         raised :=
           raised (simulate odeint (skipn k t) (skipn k levels)
                     (last (trajectory (simulate odeint (firstn (k + 1) t) levels init)) init)) |}.
Proof.
  intros F AF odeint t levels init k Hk Hfirst.
  rewrite (simulate_firstn odeint t levels init k Hk) in *.
  set (first := integration_loop odeint t levels (seq 0 k) init []) in *.
  unfold simulate at 1.
  replace (length t - 1) with (k + (length t - 1 - k)) by lia.
  rewrite seq_app.
  rewrite (integration_loop_app odeint t levels init (seq (0 + k) (length t - 1 - k))
             (seq 0 k) init [] eq_refl).
  fold first. rewrite Hfirst.
  replace (0 + k) with (k + 0) by lia.
  rewrite seq_from, integration_loop_shift.
  rewrite <- (app_nil_r (trajectory first)) at 2.
  rewrite integration_loop_buffer.
  unfold simulate. rewrite length_skipn.
  now replace (length t - k - 1) with (length t - 1 - k) by lia.
Qed.

Local Open Scope float_scope.

(** X1 at the four-point grid: the schedule of six values agrees with the
    schedule of four below index 3. *)
Lemma schedule_tail_is_never_read_witness :
  (forall i, (i < length grid - 1)%nat ->
     nth_error schedule i = nth_error long_schedule i) /\
  simulate euler grid schedule initial_state
  = simulate euler grid long_schedule initial_state.
Proof.
  assert (Hagree : forall i, (i < length grid - 1)%nat ->
                     nth_error schedule i = nth_error long_schedule i).
  { intros i Hi. cbn in Hi.
    destruct i as [|[|[|i]]]; [reflexivity | reflexivity | reflexivity | lia]. }
  split; [exact Hagree|].
  exact (schedule_tail_is_never_read float float_arith euler
           grid schedule long_schedule initial_state Hagree).
Defined.

(** X3 at the four-point grid, split at its middle point. *)
Lemma run_splits_at_any_grid_point_witness :
  (2 <= length grid - 1)%nat /\
  raised (simulate euler (firstn (2 + 1) grid) schedule initial_state) = None /\
  simulate euler grid schedule initial_state
  = {| trajectory :=
         trajectory (simulate euler (firstn (2 + 1) grid) schedule initial_state)
         ++ trajectory (simulate euler (skipn 2 grid) (skipn 2 schedule)
                          (last (trajectory (simulate euler (firstn (2 + 1) grid) schedule initial_state))
                                initial_state));
       raised :=
         raised (simulate euler (skipn 2 grid) (skipn 2 schedule)
                   (last (trajectory (simulate euler (firstn (2 + 1) grid) schedule initial_state))
                         initial_state)) |}.
Proof.
  split; [cbn; lia|]. split; [reflexivity|].
  apply (run_splits_at_any_grid_point float float_arith euler
           grid schedule initial_state 2); [cbn; lia | reflexivity].
Defined.

Local Close Scope float_scope.

(** X4. Causality: with any solver, the run over the first [k+1] grid points
    stores exactly the first [k] states of the run over the whole grid, for
    every [k]: later grid points never change earlier states. *)
Theorem run_on_grid_prefix_is_trajectory_prefix :
  forall (F : Type) (AF : Arith F)
         (odeint : (list F -> F -> result (list F)) -> list F -> F -> F -> result (list F))
         (t levels init : list F) (k : nat),
    trajectory (simulate odeint (firstn (k + 1) t) levels init)
    = firstn k (trajectory (simulate odeint t levels init)).
Proof.
  intros F AF odeint t levels init k.
  destruct (Nat.le_gt_cases k (length t - 1)) as [Hk|Hk].
  - rewrite (simulate_firstn odeint t levels init k Hk).
    set (first := integration_loop odeint t levels (seq 0 k) init []).
    destruct (integration_loop_length odeint t levels (seq 0 k) init []) as (Hle & Hiff).
    fold first in Hle, Hiff. rewrite length_seq in Hle, Hiff. cbn [length Nat.add] in Hle, Hiff.
    unfold simulate.
    replace (length t - 1) with (k + (length t - 1 - k)) by lia.
    rewrite seq_app.
    rewrite (integration_loop_app odeint t levels init (seq (0 + k) (length t - 1 - k))
               (seq 0 k) init [] eq_refl).
    fold first.
    destruct (raised first) as [e|] eqn:Hraised.
    + now rewrite firstn_all2.
    + destruct (integration_loop_extends odeint t levels (seq (0 + k) (length t - 1 - k))
                  (last (trajectory first) init) (trajectory first)) as (rest & Hrest).
      rewrite Hrest, firstn_app.
      assert (Hlen : length (trajectory first) = k) by now apply Hiff.
      rewrite Hlen, Nat.sub_diag, firstn_all2 by lia.
      cbn. now rewrite app_nil_r.
  - rewrite (firstn_all2 (n := k + 1) t) by lia.
    unfold simulate.
    destruct (integration_loop_length odeint t levels (seq 0 (length t - 1)) init [])
      as (Hle & _).
    rewrite length_seq in Hle. cbn [length Nat.add] in Hle.
    now rewrite firstn_all2 by lia.
Qed.

(** X5. No retry: with any solver, when the loop has stored [k] states and
    its turn at index [k] raises, the run ends there with that exception and
    those [k] states; no later sub-interval is attempted. *)
Theorem first_exception_ends_the_run :
  forall (F : Type) (AF : Arith F)
         (odeint : (list F -> F -> result (list F)) -> list F -> F -> F -> result (list F))
         (t levels init : list F) (k : nat) (e : exn),
    k < length t - 1 ->
    raised (simulate odeint (firstn (k + 1) t) levels init) = None ->
    loop_body odeint t levels k
      (last (trajectory (simulate odeint (firstn (k + 1) t) levels init)) init)
    = Raise e ->
    simulate odeint t levels init
    = {| trajectory := trajectory (simulate odeint (firstn (k + 1) t) levels init);
         raised := Some e |}.
Proof.
  intros F AF odeint t levels init k e Hk Hfirst Hturn.
  rewrite (simulate_firstn odeint t levels init k) in * by lia.
  set (first := integration_loop odeint t levels (seq 0 k) init []) in *.
  unfold simulate.
  replace (length t - 1) with (k + S (length t - 1 - S k)) by lia.
  rewrite seq_app.
  rewrite (integration_loop_app odeint t levels init (seq (0 + k) (S (length t - 1 - S k)))
             (seq 0 k) init [] eq_refl).
  fold first. rewrite Hfirst.
  cbn [seq integration_loop Nat.add]. now rewrite Hturn.
Qed.

Local Open Scope float_scope.

(** X5 at the four-point grid with the schedule of one value: the turn at
    index 1 raises IndexError after one stored state. *)
Lemma first_exception_ends_the_run_witness :
  (1 < length grid - 1)%nat /\
  raised (simulate euler (firstn (1 + 1) grid) short_schedule initial_state) = None /\
  loop_body euler grid short_schedule 1
    (last (trajectory (simulate euler (firstn (1 + 1) grid) short_schedule initial_state))
          initial_state)
  = Raise IndexError /\
  simulate euler grid short_schedule initial_state
  = {| trajectory := trajectory (simulate euler (firstn (1 + 1) grid) short_schedule initial_state);
       raised := Some IndexError |}.
Proof.
  split; [cbn; lia|]. split; [reflexivity|]. split; [reflexivity|].
  apply (first_exception_ends_the_run float float_arith euler
           grid short_schedule initial_state 1 IndexError);
    [cbn; lia | reflexivity | reflexivity].
Defined.

Local Close Scope float_scope.



Local Open Scope float_scope.


Local Close Scope float_scope.

(** ** The shape of the trajectory and the data of the plots *)

Section ShapeFacts.
Context {F : Type} `{Arith F}.
Variable odeint : (list F -> F -> result (list F)) -> list F -> F -> F -> result (list F).
Hypothesis solver_ok : solver_returns odeint.

Lemma loop_body_size (t levels : list F) (i : nat) (current_state y : list F) :
  length current_state = 4 ->
  loop_body odeint t levels i current_state = OK y ->
  length y = 4.
Proof.
  intros Hcur. unfold loop_body, index.
  destruct (nth_error t i) as [t_i|]; cbn [bind]; [|discriminate].
  destruct (nth_error t (i + 1)) as [t_i1|]; cbn [bind]; [|discriminate].
  destruct (nth_error levels i) as [level|]; cbn [bind]; [|discriminate].
  destruct (solver_ok level current_state t_i t_i1 Hcur) as (y' & Hy' & Hlen).
  rewrite Hy'. now intros [= <-].
Qed.

Lemma integration_loop_rows (t levels : list F) :
  forall range current_state states,
    length current_state = 4 ->
    Forall (fun row => length row = 4) states ->
    Forall (fun row => length row = 4)
           (trajectory (integration_loop odeint t levels range current_state states)).
Proof.
  induction range as [|i range IH]; intros current_state states Hcur Hrows;
    cbn [integration_loop]; [exact Hrows|].
  destruct (loop_body odeint t levels i current_state) as [y|e] eqn:Hbody; [|exact Hrows].
  pose proof (loop_body_size t levels i current_state y Hcur Hbody) as Hy.
  apply IH; [exact Hy|].
  apply Forall_app. split; [exact Hrows|]. now constructor.
Qed.

End ShapeFacts.

(** X7. Shape: with a solver that returns four components on
    four-component problems and an initial state of four components, every
    state the loop stores has four components, whatever the grid and the
    schedule and whether or not the run ends with an exception, so that
    [np.array(states)] is a rectangular array with four columns. *)
Theorem stored_states_have_four_components :
  forall (F : Type) (AF : Arith F)
         (odeint : (list F -> F -> result (list F)) -> list F -> F -> F -> result (list F))
         (t levels init : list F),
    solver_returns odeint ->
    length init = 4 ->
    Forall (fun row => length row = 4) (trajectory (simulate odeint t levels init)).
Proof.
  intros F AF odeint t levels init Hsolver Hinit. unfold simulate.
  apply (integration_loop_rows odeint Hsolver); [exact Hinit | constructor].
Qed.

Lemma stored_states_have_four_components_witness :
  solver_returns (euler (F := float)) /\
  length initial_state = 4 /\
  Forall (fun row => length row = 4)
         (trajectory (simulate euler grid short_schedule initial_state)).
Proof.
  split; [apply euler_returns|]. split; [reflexivity|].
  apply (stored_states_have_four_components float float_arith euler
           grid short_schedule initial_state);
    [apply euler_returns | reflexivity].
Defined.

Section PlotFacts.
Context {F : Type} `{Arith F}.

Lemma length_elementwise (op : F -> F -> F) (a b : list F) :
  length (elementwise op a b) = Nat.min (length a) (length b).
Proof. unfold elementwise. now rewrite length_map, length_combine. Qed.

Lemma length_slice {A : Type} (a : list A) (lo hi : nat) :
  length (slice a lo hi) = Nat.min (hi - lo) (length a - lo).
Proof. unfold slice. now rewrite length_firstn, length_skipn. Qed.

(** The series of a rectangular trajectory that is not empty. *)
Lemma series_of_rows (states : list (list F)) (d : F) :
  states <> [] ->
  Forall (fun row => length row = 4) states ->
  column states 0 = OK (map (fun row => nth 0 row d) states) /\
  column states 1 = OK (map (fun row => nth 1 row d) states) /\
  column states 2 = OK (map (fun row => nth 2 row d) states) /\
  column states 3 = OK (map (fun row => nth 3 row d) states).
Proof.
  intros Hne Hrows.
  repeat split; apply column_of_rows; auto; lia.
Qed.

End PlotFacts.

(** X8. Every plot gets ordinates as long as its abscissa: after a run over
    a grid of at least two points with a schedule that reaches index
    [len(t)-2], a solver that returns and an initial state of four
    components, the male and female columns, the total, the male fraction,
    the host and the predator series are all produced, each with exactly the
    [len(t)-1] entries of [t[1:]]. *)
Theorem plotted_series_match_time_axis :
  forall (F : Type) (AF : Arith F)
         (odeint : (list F -> F -> result (list F)) -> list F -> F -> F -> result (list F))
         (t levels init : list F),
    solver_returns odeint ->
    length init = 4 ->
    2 <= length t ->
    length t - 1 <= length levels ->
    exists males females total ratio hosts predators,
      column (trajectory (simulate odeint t levels init)) 0 = OK males /\
      column (trajectory (simulate odeint t levels init)) 1 = OK females /\
      eel_total_series (trajectory (simulate odeint t levels init)) = OK total /\
      male_ratio_series (trajectory (simulate odeint t levels init)) = OK ratio /\
      host_series (trajectory (simulate odeint t levels init)) = OK hosts /\
      predator_series (trajectory (simulate odeint t levels init)) = OK predators /\
      length males = length (after_first t) /\
      length females = length (after_first t) /\
      length total = length (after_first t) /\
      length ratio = length (after_first t) /\
      length hosts = length (after_first t) /\
      length predators = length (after_first t).
Proof.
  intros F AF odeint t levels init Hsolver Hinit Ht Hlevels.
  destruct (simulate_completes odeint Hsolver t levels init Hinit Hlevels)
    as (traj & Hrun & Hlen & _).
  pose proof (integration_loop_rows odeint Hsolver t levels (seq 0 (length t - 1))
                init [] Hinit (Forall_nil _)) as Hrows.
  fold (simulate odeint t levels init) in Hrows.
  rewrite Hrun in *. cbn [trajectory] in *.
  assert (Hne : traj <> []) by (intros ->; cbn in Hlen; lia).
  destruct (series_of_rows traj (lit 0) Hne Hrows) as (H0 & H1 & H2 & H3).
  unfold male_ratio_series, eel_total_series, host_series, predator_series.
  rewrite H0, H1, H2, H3. cbn [bind].
  do 6 eexists.
  do 6 (split; [reflexivity|]).
  unfold after_first. rewrite length_skipn.
  rewrite !length_elementwise, !length_map, Hlen.
  repeat split; lia.
Qed.

Lemma plotted_series_match_time_axis_witness :
  solver_returns (euler (F := float)) /\
  length initial_state = 4 /\
  2 <= length grid /\
  length grid - 1 <= length schedule /\
  exists males females total ratio hosts predators,
    column (trajectory (simulate euler grid schedule initial_state)) 0 = OK males /\
    column (trajectory (simulate euler grid schedule initial_state)) 1 = OK females /\
    eel_total_series (trajectory (simulate euler grid schedule initial_state)) = OK total /\
    male_ratio_series (trajectory (simulate euler grid schedule initial_state)) = OK ratio /\
    host_series (trajectory (simulate euler grid schedule initial_state)) = OK hosts /\
    predator_series (trajectory (simulate euler grid schedule initial_state)) = OK predators /\
    length males = length (after_first grid) /\
    length females = length (after_first grid) /\
    length total = length (after_first grid) /\
    length ratio = length (after_first grid) /\
    length hosts = length (after_first grid) /\
    length predators = length (after_first grid).
Proof.
  split; [apply euler_returns|]. split; [reflexivity|].
  split; [cbn; lia|]. split; [cbn; lia|].
  apply (plotted_series_match_time_axis float float_arith euler
           grid schedule initial_state);
    [apply euler_returns | reflexivity | cbn; lia | cbn; lia].
Defined.

(** X9. A grid of fewer than two points: the loop does not run, nothing is
    stored and no exception is raised, whatever the solver; [np.array] of
    the empty buffer is one-dimensional, so every series the plots index by
    column raises IndexError. *)
Theorem single_point_grid_has_no_series :
  forall (F : Type) (AF : Arith F)
         (odeint : (list F -> F -> result (list F)) -> list F -> F -> F -> result (list F))
         (t levels init : list F),
    length t <= 1 ->
    simulate odeint t levels init = {| trajectory := []; raised := None |} /\
    eel_total_series (trajectory (simulate odeint t levels init)) = Raise IndexError /\
    male_ratio_series (trajectory (simulate odeint t levels init)) = Raise IndexError /\
    host_series (trajectory (simulate odeint t levels init)) = Raise IndexError /\
    predator_series (trajectory (simulate odeint t levels init)) = Raise IndexError /\
    (forall frame, animate t (trajectory (simulate odeint t levels init)) frame
                   = Raise IndexError).
Proof.
  intros F AF odeint t levels init Ht.
  assert (Hrun : simulate odeint t levels init = {| trajectory := []; raised := None |}).
  { unfold simulate. now replace (length t - 1) with 0 by lia. }
  rewrite Hrun. repeat split; reflexivity.
Qed.

Lemma single_point_grid_witness :
  length [0%float] <= 1 /\
  simulate euler [0%float] schedule initial_state = {| trajectory := []; raised := None |} /\
  eel_total_series (trajectory (simulate euler [0%float] schedule initial_state)) = Raise IndexError /\
  male_ratio_series (trajectory (simulate euler [0%float] schedule initial_state)) = Raise IndexError /\
  host_series (trajectory (simulate euler [0%float] schedule initial_state)) = Raise IndexError /\
  predator_series (trajectory (simulate euler [0%float] schedule initial_state)) = Raise IndexError /\
  (forall frame, animate [0%float] (trajectory (simulate euler [0%float] schedule initial_state)) frame
                 = Raise IndexError).
Proof.
  split; [cbn; lia|].
  apply (single_point_grid_has_no_series float float_arith euler
           [0%float] schedule initial_state). cbn; lia.
Defined.

(** ** The animation *)

Section AnimationFacts.
Context {F : Type} `{Arith F}.

Lemma elementwise_firstn (op : F -> F -> F) (a b : list F) (n : nat) :
  elementwise op (firstn n a) (firstn n b) = firstn n (elementwise op a b).
Proof. unfold elementwise. now rewrite <- combine_firstn, firstn_map. Qed.

Lemma slice_from_0 {A : Type} (a : list A) (n : nat) : slice a 0 n = firstn n a.
Proof. unfold slice. now rewrite Nat.sub_0_r, skipn_0. Qed.

Lemma slice_from_1 {A : Type} (a : list A) (n : nat) :
  slice a 1 (n + 1) = firstn n (after_first a).
Proof. unfold slice, after_first. now replace (n + 1 - 1) with n by lia. Qed.

(** [animate] on a rectangular trajectory that is not empty: the first
    [frame] entries of the abscissa and of each series. *)
Lemma animate_of_rows (t : list F) (states : list (list F)) (frame : nat) (d : F) :
  states <> [] ->
  Forall (fun row => length row = 4) states ->
  animate t states frame
  = OK {| frame_t := firstn frame (after_first t);
          frame_eel :=
            firstn frame (map (fun row => add (nth 0 row d) (nth 1 row d)) states);
          frame_host := firstn frame (map (fun row => nth 2 row d) states);
          frame_predator := firstn frame (map (fun row => nth 3 row d) states) |}.
Proof.
  intros Hne Hrows.
  destruct (series_of_rows states d Hne Hrows) as (H0 & H1 & H2 & H3).
  unfold animate, column_upto. rewrite H0, H1, H2, H3. cbn [bind].
  rewrite !slice_from_0, slice_from_1, elementwise_firstn, elementwise_map.
  reflexivity.
Qed.

End AnimationFacts.

(** X10. In every frame of the animation the three lines get ordinates as
    long as their abscissa: on a trajectory of [len(t)-1] four-component
    states, [animate(frame)] raises nothing and hands each [set_data]
    [min(frame, len(t)-1)] abscissae and as many ordinates. *)
Theorem animate_hands_over_equal_lengths :
  forall (F : Type) (AF : Arith F) (t : list F) (states : list (list F)) (frame : nat),
    states <> [] ->
    Forall (fun row => length row = 4) states ->
    length states = length t - 1 ->
    exists data,
      animate t states frame = OK data /\
      length (frame_t data) = Nat.min frame (length t - 1) /\
      length (frame_eel data) = length (frame_t data) /\
      length (frame_host data) = length (frame_t data) /\
      length (frame_predator data) = length (frame_t data).
Proof.
  intros F AF t states frame Hne Hrows Hlen.
  rewrite (animate_of_rows t states frame (lit 0) Hne Hrows).
  eexists. split; [reflexivity|]. cbn [frame_t frame_eel frame_host frame_predator].
  unfold after_first.
  rewrite !length_firstn, !length_map, length_skipn, Hlen.
  repeat split; lia.
Qed.

(** X11. The animation draws the trajectory point by point and stops one
    short: for a frame number of [range(len(t)-1)], [animate] hands over
    exactly the first [frame] entries of [t[1:]] and of the total, host and
    predator series, so frame 0 is empty and no frame holds the last stored
    state. *)
Theorem animation_never_draws_last_state :
  forall (F : Type) (AF : Arith F) (t : list F) (states : list (list F)) (frame : nat),
    states <> [] ->
    Forall (fun row => length row = 4) states ->
    length states = length t - 1 ->
    In frame (frames t) ->
    exists data total hosts predators,
      animate t states frame = OK data /\
      eel_total_series states = OK total /\
      host_series states = OK hosts /\
      predator_series states = OK predators /\
      frame_t data = firstn frame (after_first t) /\
      frame_eel data = firstn frame total /\
      frame_host data = firstn frame hosts /\
      frame_predator data = firstn frame predators /\
      length (frame_t data) = frame /\
      length (frame_t data) < length states.
Proof.
  intros F AF t states frame Hne Hrows Hlen Hframe.
  apply in_seq in Hframe.
  rewrite (animate_of_rows t states frame (lit 0) Hne Hrows).
  destruct (series_of_rows states (lit 0) Hne Hrows) as (H0 & H1 & H2 & H3).
  unfold eel_total_series, host_series, predator_series.
  rewrite H0, H1, H2, H3. cbn [bind]. rewrite elementwise_map.
  do 4 eexists.
  do 8 (split; [reflexivity|]).
  cbn [frame_t]. unfold after_first.
  rewrite length_firstn, length_skipn. lia.
Qed.

Local Open Scope float_scope.

Lemma animate_hands_over_equal_lengths_witness :
  degenerate_states <> [] /\
  Forall (fun row => length row = 4%nat) degenerate_states /\
  length degenerate_states = (length grid - 1)%nat /\
  exists data,
    animate grid degenerate_states 2 = OK data /\
    length (frame_t data) = Nat.min 2 (length grid - 1) /\
    length (frame_eel data) = length (frame_t data) /\
    length (frame_host data) = length (frame_t data) /\
    length (frame_predator data) = length (frame_t data).
Proof.
  split; [discriminate|]. split; [repeat constructor|]. split; [reflexivity|].
  apply (animate_hands_over_equal_lengths float float_arith grid degenerate_states 2);
    [discriminate | repeat constructor | reflexivity].
Defined.

Lemma animation_never_draws_last_state_witness :
  degenerate_states <> [] /\
  Forall (fun row => length row = 4%nat) degenerate_states /\
  length degenerate_states = (length grid - 1)%nat /\
  In 2%nat (frames grid) /\
  exists data total hosts predators,
    animate grid degenerate_states 2 = OK data /\
    eel_total_series degenerate_states = OK total /\
    host_series degenerate_states = OK hosts /\
    predator_series degenerate_states = OK predators /\
    frame_t data = firstn 2 (after_first grid) /\
    frame_eel data = firstn 2 total /\
    frame_host data = firstn 2 hosts /\
    frame_predator data = firstn 2 predators /\
    length (frame_t data) = 2%nat /\
    (length (frame_t data) < length degenerate_states)%nat.
Proof.
  split; [discriminate|]. split; [repeat constructor|]. split; [reflexivity|].
  split; [cbn; auto|].
  apply (animation_never_draws_last_state float float_arith grid degenerate_states 2);
    [discriminate | repeat constructor | reflexivity | cbn; auto].
Defined.

(** ** The dynamics function in binary64 *)

(** X12. The regime is read through one comparison with 0.5: every value
    below 0.5 acts as scarce, every other value, NaN included, as
    abundant. *)
Theorem regime_is_read_through_threshold :
  forall (state : list float) (t resource_level : float),
    ecosystem_model state t resource_level
    = ecosystem_model state t (if resource_level <? 0.5 then scarce else abundant).
Proof.
  intros state t resource_level.
  destruct state as [|m [|f [|h [|p [|x rest]]]]]; try reflexivity.
  cbn [ecosystem_model]. unfold female_ratio, male_ratio.
  cbn [ltb lit float_arith].
  replace (float_lit 0.5) with 0.5 by reflexivity.
  destruct (resource_level <? 0.5); reflexivity.
Qed.

(** The unknown regime NaN acts as abundant. *)
Example nan_regime_is_abundant :
  forall (state : list float) (t : float),
    ecosystem_model state t nan = ecosystem_model state t abundant.
Proof.
  intros state t.
  destruct state as [|m [|f [|h [|p [|x rest]]]]]; reflexivity.
Qed.

Ltac decode_arithmetic :=
  repeat rewrite ?FloatAxioms.sub_spec, ?FloatAxioms.mul_spec, ?FloatAxioms.add_spec.

(** With no females there is no birth to allocate: each class is credited
    the zero [0.8 * f], whatever the regime. *)
Lemma no_females_no_births (resource_level f : float) :
  (f =? 0) = true ->
  (male_ratio resource_level * eel_birth f)%num = eel_birth f /\
  (female_ratio resource_level * eel_birth f)%num = eel_birth f.
Proof.
  intros Hf. destruct (zero_decoded f Hf) as (s & Hs).
  unfold female_ratio, male_ratio, eel_birth.
  cbn [ltb lit sub mul float_arith].
  split; apply Prim2SF_inj;
    destruct (resource_level <? float_lit 0.5);
    decode_arithmetic; rewrite Hs; destruct s; reflexivity.
Qed.

(** X13. With no females the regime has no effect: at a state whose female
    count is a zero the dynamics function returns the same four rates under
    any two regime values. *)
Theorem regime_is_irrelevant_without_females :
  forall (m f h p t resource_level resource_level' : float),
    (f =? 0) = true ->
    ecosystem_model [m; f; h; p] t resource_level
    = ecosystem_model [m; f; h; p] t resource_level'.
Proof.
  intros m f h p t resource_level resource_level' Hf.
  cbn [ecosystem_model].
  destruct (no_females_no_births resource_level f Hf) as (Hm1 & Hf1).
  destruct (no_females_no_births resource_level' f Hf) as (Hm2 & Hf2).
  now rewrite Hm1, Hf1, Hm2, Hf2.
Qed.

Lemma regime_is_irrelevant_without_females_witness :
  (0 =? 0) = true /\
  ecosystem_model [78; 0; 1000; 50] 0 scarce
  = ecosystem_model [78; 0; 1000; 50] 0 abundant.
Proof.
  split; [reflexivity|].
  apply (regime_is_irrelevant_without_females 78 0 1000 50 0 scarce abundant).
  reflexivity.
Defined.

(** X14. Parasites are not created from nothing: at a state whose male and
    female counts are zeros, the male and the female rate are each a zero or
    NaN, never a number other than zero, whatever the host and predator
    counts and the regime. *)
Theorem absent_parasites_stay_absent :
  forall (m f h p t resource_level : float),
    (m =? 0) = true ->
    (f =? 0) = true ->
    exists d_m d_f d_h d_p,
      ecosystem_model [m; f; h; p] t resource_level = OK [d_m; d_f; d_h; d_p] /\
      zero_or_nan d_m = true /\
      zero_or_nan d_f = true.
Proof.
  intros m f h p t resource_level Hm Hf.
  destruct (zero_decoded m Hm) as (sm & Hsm).
  destruct (zero_decoded f Hf) as (sf & Hsf).
  do 4 eexists. split; [reflexivity|].
  destruct (no_females_no_births resource_level f Hf) as (Hm1 & Hf1).
  rewrite Hm1, Hf1.
  unfold eel_birth, eel_death. cbn [lit add sub mul float_arith].
  generalize (float_lit 0.02 * p). intros q.
  assert (Hrate : zero_or_nan (float_lit 0.8 * f - (float_lit 0.1 * (m + f) + q * (m + f))) = true).
  { unfold zero_or_nan. decode_arithmetic. rewrite Hsm, Hsf.
    destruct (Prim2SF q) as [s|s| |s mq eq]; destruct sm, sf; try destruct s; reflexivity. }
  split; exact Hrate.
Qed.

Lemma absent_parasites_stay_absent_witness :
  (0 =? 0) = true /\
  (0 =? 0) = true /\
  exists d_m d_f d_h d_p,
    ecosystem_model [0; 0; 1000; 50] 0 scarce = OK [d_m; d_f; d_h; d_p] /\
    zero_or_nan d_m = true /\
    zero_or_nan d_f = true.
Proof.
  split; [reflexivity|]. split; [reflexivity|].
  apply (absent_parasites_stay_absent 0 0 1000 50 0 scarce); reflexivity.
Defined.

(** X15. Hosts are not created from nothing: at a state whose host count is
    a zero the host rate is a zero or NaN, whatever the other counts. *)
Theorem absent_hosts_stay_absent :
  forall (m f h p t resource_level : float),
    (h =? 0) = true ->
    exists d_m d_f d_h d_p,
      ecosystem_model [m; f; h; p] t resource_level = OK [d_m; d_f; d_h; d_p] /\
      zero_or_nan d_h = true.
Proof.
  intros m f h p t resource_level Hh.
  destruct (zero_decoded h Hh) as (sh & Hsh).
  do 4 eexists. split; [reflexivity|].
  unfold host_birth, host_death. cbn [lit add sub mul float_arith].
  generalize (float_lit 0.03 * (m + f)). intros q.
  unfold zero_or_nan. decode_arithmetic. rewrite Hsh.
  destruct (Prim2SF q) as [s|s| |s mq eq]; destruct sh; try destruct s; reflexivity.
Qed.

Lemma absent_hosts_stay_absent_witness :
  (0 =? 0) = true /\
  exists d_m d_f d_h d_p,
    ecosystem_model [78; 22; 0; 50] 0 scarce = OK [d_m; d_f; d_h; d_p] /\
    zero_or_nan d_h = true.
Proof.
  split; [reflexivity|].
  apply (absent_hosts_stay_absent 78 22 0 50 0 scarce); reflexivity.
Defined.

(** X16. Predators are not created from nothing: at a state whose predator
    count is a zero the predator rate is a zero or NaN, whatever the other
    counts. *)
Theorem absent_predators_stay_absent :
  forall (m f h p t resource_level : float),
    (p =? 0) = true ->
    exists d_m d_f d_h d_p,
      ecosystem_model [m; f; h; p] t resource_level = OK [d_m; d_f; d_h; d_p] /\
      zero_or_nan d_p = true.
Proof.
  intros m f h p t resource_level Hp.
  destruct (zero_decoded p Hp) as (sp & Hsp).
  do 4 eexists. split; [reflexivity|].
  unfold predator_birth, predator_death. cbn [lit add sub mul float_arith].
  generalize (m + f). intros q.
  unfold zero_or_nan. decode_arithmetic. rewrite Hsp.
  destruct (Prim2SF q) as [s|s| |s mq eq]; destruct sp; try destruct s; reflexivity.
Qed.

Lemma absent_predators_stay_absent_witness :
  (0 =? 0) = true /\
  exists d_m d_f d_h d_p,
    ecosystem_model [78; 22; 1000; 0] 0 scarce = OK [d_m; d_f; d_h; d_p] /\
    zero_or_nan d_p = true.
Proof.
  split; [reflexivity|].
  apply (absent_predators_stay_absent 78 22 1000 0 0 scarce); reflexivity.
Defined.
